(** * LinkCell: the link cell of the data-frame grid

    A shallow embedding of
    [frontend/lib/src/components/widgets/DataFrame/columns/cells/LinkCell.tsx]:
    the display-value resolver [getLinkDisplayValue], the click hit test
    [onClickSelect], the renderer record [linkCellRenderer] ([draw],
    [measure], [onSelect], [onDelete], [onPaste], the editor's change
    handler), and the properties of them that the specification states.

    Conventions of the embedding.
    - A JavaScript value of type [string | undefined] is an [option string];
      [None] is [undefined].
    - A JavaScript number is a rational ([Q]): every finite double is one, and
      sums and products are taken exactly (no rounding, no NaN, no infinity).
    - A function that may throw returns in the exception monad
      [sum JsError]; [try { .. } catch { .. }] is the monad's [catch].
    - The regular-expression engine, the canvas text metrics and the grid's
      helper functions are not part of the file: they are class parameters. *)

From Stdlib Require Import String Ascii List Bool ZArith QArith Qround Lqa.
From ExtLib Require Import Structures.Monad Structures.MonadExc Data.Monads.EitherMonad.
Import ListNotations.
Import MonadNotation.
Local Open Scope monad_scope.
Local Open Scope string_scope.

(** ** The JavaScript runtime the cell relies on *)

Module Js.

(** The two errors the resolver's [try] block can meet: [new RegExp] on a
    malformed pattern, and a method call on [undefined]. *)
Inductive JsError : Type :=
| SyntaxError
| TypeError.

Definition completion : Type -> Type := sum JsError.

Definition undefined {A : Type} : option A := None.

(** Conversion of an argument to a DOMString, as [measureText] and
    [fillText] do with what they are given. *)
Definition toDOMString (v : option string) : string :=
  match v with
  | None => "undefined"
  | Some s => s
  end.

(** [a === b] between a string and a [string | undefined]. *)
Definition strict_eq (a : string) (b : option string) : bool :=
  match b with
  | None => false
  | Some s => String.eqb a s
  end.

(** [a < b] and [a > b] on numbers. *)
Definition ltb (a b : Q) : bool := negb (Qle_bool b a).
Definition gtb (a b : Q) : bool := ltb b a.

(** [Math.floor]. *)
Definition floor (a : Q) : Q := inject_Z (Qfloor a).

(** The result of [String.prototype.match] with a non-global pattern:
    entry 0 is the whole match, entry [i] is the text of capturing group
    [i], [undefined] when the group took no part in the match. *)
Definition MatchArray : Type := list (option string).

(** [arr[i]]: reading past the end of an array gives [undefined]. *)
Definition index (arr : MatchArray) (i : nat) : option string :=
  nth i arr undefined.

(** The regular-expression engine: [new RegExp(pattern, flags)], which
    throws on a malformed pattern, and [str.match(re)], which gives [null]
    ([None]) or the match array.  The one law is a fact of the pattern
    grammar: the empty pattern has no capturing group. *)
Class RegExpEngine : Type := {
  RegExp : Type;
  RegExp_new : string -> string -> completion RegExp;
  String_match : string -> RegExp -> option MatchArray;
  empty_pattern_no_group :
    forall flags re str arr,
      RegExp_new "" flags = inr re ->
      String_match str re = Some arr ->
      nth_error arr 1 = None
}.

End Js.

(** ** An executable engine for a fragment of the pattern language

    A backtracking matcher in the style of the language's own definition
    (continuations, greedy quantifiers, leftmost match), for literals, [.],
    the escapes [\d \D \w \W \s \S \n \t] and escaped syntax characters,
    [^], [$], groups [( )] and [(?: )], alternation and the quantifiers
    [* + ?], over 8-bit characters.  Anything else is refused by [compile].
    The properties of the cell are proved for every engine; this one
    evaluates them on sample inputs. *)

Module MiniRegExp.
Import Js.

Inductive cls : Type := CDigit | CWord | CSpace.

Inductive re : Type :=
| Eps
| Chr (c : ascii)
| AnyChar
| Cls (negated : bool) (k : cls)
| Bol
| Eol
| Cat (a b : re)
| Alt (a b : re)
| Star (a : re)
| Opt (a : re)
| Grp (i : nat) (a : re).

Record regexp : Type := { body : re; ngroups : nat }.

(** *** Compilation *)

Definition between (lo hi : nat) (c : ascii) : bool :=
  let n := nat_of_ascii c in (lo <=? n)%nat && (n <=? hi)%nat.

Definition in_cls (k : cls) (c : ascii) : bool :=
  match k with
  | CDigit => between 48 57 c
  | CWord => between 48 57 c || between 65 90 c || between 97 122 c
             || Ascii.eqb c "_"
  | CSpace => between 9 13 c || Ascii.eqb c " "
  end.

Definition is_syntax_char (c : ascii) : bool :=
  existsb (Ascii.eqb c) (list_ascii_of_string "^$\.*+?()[]{}|").

Definition escape (c : ascii) : option re :=
  if Ascii.eqb c "d" then Some (Cls false CDigit)
  else if Ascii.eqb c "D" then Some (Cls true CDigit)
  else if Ascii.eqb c "w" then Some (Cls false CWord)
  else if Ascii.eqb c "W" then Some (Cls true CWord)
  else if Ascii.eqb c "s" then Some (Cls false CSpace)
  else if Ascii.eqb c "S" then Some (Cls true CSpace)
  else if Ascii.eqb c "n" then Some (Chr (ascii_of_nat 10))
  else if Ascii.eqb c "t" then Some (Chr (ascii_of_nat 9))
  else if is_syntax_char c || Ascii.eqb c "/" then Some (Chr c)
  else None.

(** One open group while parsing: the alternatives closed so far, the
    terms of the current alternative (each with whether a quantifier may
    follow it), both newest first, and the group's number when it
    captures. *)
Record frame : Type := {
  alts : list re;
  terms : list (re * bool);
  capture : option nat
}.

Definition open_frame (g : option nat) : frame :=
  {| alts := []; terms := []; capture := g |}.

Definition push (t : re) (q : bool) (f : frame) : frame :=
  {| alts := alts f; terms := (t, q) :: terms f; capture := capture f |}.

Definition cat_terms (ts : list (re * bool)) : re :=
  fold_left (fun acc t => Cat (fst t) acc) ts Eps.

Definition next_alt (f : frame) : frame :=
  {| alts := cat_terms (terms f) :: alts f; terms := [];
     capture := capture f |}.

Definition close_frame (f : frame) : re :=
  let r := fold_left (fun acc a => Alt a acc) (alts f) (cat_terms (terms f)) in
  match capture f with
  | Some i => Grp i r
  | None => r
  end.

Definition quantify (q : ascii) (a : re) : re :=
  if Ascii.eqb q "*" then Star a
  else if Ascii.eqb q "+" then Cat a (Star a)
  else Opt a.

Fixpoint parse (s : list ascii) (cur : frame) (stack : list frame) (n : nat)
  : option regexp :=
  match s with
  | [] =>
      match stack with
      | [] => Some {| body := close_frame cur; ngroups := n |}
      | _ :: _ => None
      end
  | c :: s' =>
      if Ascii.eqb c "(" then
        match s' with
        | "?"%char :: ":"%char :: s'' =>
            parse s'' (open_frame None) (cur :: stack) n
        | "?"%char :: _ => None
        | _ => parse s' (open_frame (Some (S n))) (cur :: stack) (S n)
        end
      else if Ascii.eqb c ")" then
        match stack with
        | [] => None
        | up :: stack' => parse s' (push (close_frame cur) true up) stack' n
        end
      else if Ascii.eqb c "|" then parse s' (next_alt cur) stack n
      else if Ascii.eqb c "*" || Ascii.eqb c "+" || Ascii.eqb c "?" then
        match terms cur with
        | (a, true) :: ts =>
            parse s'
              {| alts := alts cur; terms := (quantify c a, false) :: ts;
                 capture := capture cur |} stack n
        | _ => None
        end
      else if Ascii.eqb c "\" then
        match s' with
        | e :: s'' =>
            match escape e with
            | Some a => parse s'' (push a true cur) stack n
            | None => None
            end
        | [] => None
        end
      else if Ascii.eqb c "." then parse s' (push AnyChar true cur) stack n
      else if Ascii.eqb c "^" then parse s' (push Bol false cur) stack n
      else if Ascii.eqb c "$" then parse s' (push Eol false cur) stack n
      else if is_syntax_char c then None
      else parse s' (push (Chr c) true cur) stack n
  end.

(** [new RegExp(pattern, flags)].  The fragment has no flag-dependent
    construct besides [.], which matches every character (flag [s]). *)
Definition compile (pattern flags : string) : completion regexp :=
  match parse (list_ascii_of_string pattern) (open_frame None) [] 0 with
  | Some r => inr r
  | None => inl SyntaxError
  end.

(** *** Matching *)

Definition caps : Type := list (option string).

(** The continuation of a match: position, rest of the input, captures. *)
Definition cont : Type := nat -> list ascii -> caps -> option (nat * caps).

Definition substr (inp : list ascii) (from to : nat) : string :=
  string_of_list_ascii (firstn (to - from) (skipn from inp)).

Fixpoint set_cap (i : nat) (v : option string) (c : caps) : caps :=
  match i, c with
  | 1%nat, _ :: c' => v :: c'
  | S j, g :: c' => g :: set_cap j v c'
  | _, _ => c
  end.

(** The groups inside a term: a repetition forgets what they captured
    when it starts a new round. *)
Fixpoint groups_of (r : re) : list nat :=
  match r with
  | Grp i a => i :: groups_of a
  | Cat a b | Alt a b => groups_of a ++ groups_of b
  | Star a | Opt a => groups_of a
  | _ => []
  end.

Definition clear_caps (gs : list nat) (c : caps) : caps :=
  fold_right (fun i acc => set_cap i None acc) c gs.

(** Greedy repetition: one more round of [step] first, then the rest; a
    round that consumes nothing is cut, so [fuel = length of the rest]
    rounds are enough. *)
Fixpoint star_loop (fuel : nat)
    (step : nat -> list ascii -> caps -> cont -> option (nat * caps))
    (p : nat) (s : list ascii) (c : caps) (k : cont) : option (nat * caps) :=
  match fuel with
  | O => k p s c
  | S fuel' =>
      match step p s c
              (fun p' s' c' =>
                 if (p <? p')%nat then star_loop fuel' step p' s' c' k
                 else None) with
      | Some r => Some r
      | None => k p s c
      end
  end.

Fixpoint run (inp : list ascii) (r : re) (p : nat) (s : list ascii)
    (c : caps) (k : cont) : option (nat * caps) :=
  match r with
  | Eps => k p s c
  | Chr a =>
      match s with
      | x :: s' => if Ascii.eqb x a then k (S p) s' c else None
      | [] => None
      end
  | AnyChar =>
      match s with
      | _ :: s' => k (S p) s' c
      | [] => None
      end
  | Cls negated cl =>
      match s with
      | x :: s' => if xorb negated (in_cls cl x) then k (S p) s' c else None
      | [] => None
      end
  | Bol => if (p =? 0)%nat then k p s c else None
  | Eol => match s with [] => k p s c | _ :: _ => None end
  | Cat a b => run inp a p s c (fun p' s' c' => run inp b p' s' c' k)
  | Alt a b =>
      match run inp a p s c k with
      | Some res => Some res
      | None => run inp b p s c k
      end
  | Star a =>
    star_loop (length s)
      (fun p' s' c' k' => run inp a p' s' (clear_caps (groups_of a) c') k')
      p s c k
  | Opt a =>
    star_loop 1
      (fun p' s' c' k' => run inp a p' s' (clear_caps (groups_of a) c') k')
      p s c k
  | Grp i a =>
      run inp a p s c
      (fun p' s' c' => k p' s' (set_cap i (Some (substr inp p p')) c'))
  end.

(** The leftmost match: try every start position in turn. *)
Fixpoint search (inp : list ascii) (r : regexp) (p : nat) (s : list ascii)
  : option MatchArray :=
  match run inp (body r) p s (repeat None (ngroups r))
            (fun p' _ c => Some (p', c)) with
  | Some (e, c) => Some (Some (substr inp p e) :: c)
  | None =>
      match s with
      | [] => None
      | _ :: s' => search inp r (S p) s'
      end
  end.

Definition exec (str : string) (r : regexp) : option MatchArray :=
  let inp := list_ascii_of_string str in search inp r 0 inp.

End MiniRegExp.


(** ** The cell *)

Module LinkCell.
Import Js.
Local Open Scope Q_scope.

Definition UNDERLINE_OFFSET : Q := 5.

(** [LinkCellProps].  The interface declares [href: string]; the renderer
    tests [href === undefined] all the same, so the field is a
    [string | undefined] here. *)
Record LinkCellProps : Type := {
  kind : string;
  href : option string;
  displayText : option string
}.

(** [CustomCell<LinkCellProps>], the grid's cell record.  The file reads
    [data] and [readonly] and writes [data] and [copyData]; the grid's other
    fields of a cell (its own [kind], [allowOverlay], [style], ...) are
    declared by the grid library and only ever copied: [grid : G] holds them. *)
Record CustomCell (G : Type) : Type := {
  data : LinkCellProps;
  copyData : string;
  readonly : option bool;
  grid : G
}.
Arguments data {G} _.
Arguments copyData {G} _.
Arguments readonly {G} _.
Arguments grid {G} _.

(** The theme tokens the cell reads. *)
Record Theme : Type := {
  baseFontStyle : string;
  fontFamily : string;
  cellHorizontalPadding : Q;
  linkColor : string;
  bgCell : string;
  accentLight : string
}.

Record Rectangle : Type := { x : Q; y : Q; width : Q; height : Q }.

(** The 2D context, as far as the cell uses it: the three properties it
    sets and the drawing calls it issues, newest first. *)
Inductive CanvasCall : Type :=
| moveTo (px py : Q)
| lineTo (px py : Q)
| stroke (style : string)
| fillText (text : string) (px py : Q) (style : string)
| closePath.

Record Canvas : Type := {
  font : string;
  strokeStyle : string;
  fillStyle : string;
  calls : list CanvasCall
}.

Definition set_font (v : string) (c : Canvas) : Canvas :=
  {| font := v; strokeStyle := strokeStyle c; fillStyle := fillStyle c;
     calls := calls c |}.

Definition set_strokeStyle (v : string) (c : Canvas) : Canvas :=
  {| font := font c; strokeStyle := v; fillStyle := fillStyle c;
     calls := calls c |}.

Definition set_fillStyle (v : string) (c : Canvas) : Canvas :=
  {| font := font c; strokeStyle := strokeStyle c; fillStyle := v;
     calls := calls c |}.

Definition call (op : CanvasCall) (c : Canvas) : Canvas :=
  {| font := font c; strokeStyle := strokeStyle c; fillStyle := fillStyle c;
     calls := op :: calls c |}.

(** What the browser and the grid library provide:
    [measureText f t] is [ctx.measureText(t).width] on a context whose font
    is [f]; [measureTextCached t f] the grid's cached metrics' width;
    [createContext] is
    [document.createElement("canvas").getContext("2d", { alpha: false })],
    [None] when it gives [null]. *)
Class Host : Type := {
  measureText : string -> string -> Q;
  measureTextCached : string -> string -> Q;
  getMiddleCenterBias : string -> Q;
  blend : string -> string -> string;
  createContext : option Canvas
}.

(** The argument records of [draw] and of [onSelect]. *)
Module Args.
Record t : Type := {
  ctx : Canvas;
  rect : Rectangle;
  theme : Theme;
  hoverX : option Q;
  highlighted : bool
}.
End Args.

Module Event.
Record t (G : Type) : Type := {
  posX : Q;
  bounds : Rectangle;
  cell : CustomCell G;
  theme : Theme
}.
Arguments posX {G} _.
Arguments bounds {G} _.
Arguments cell {G} _.
Arguments theme {G} _.
End Event.

(** An effect of [onSelect]. *)
Inductive Effect : Type :=
| window_open (url target : string).

(** The template string [`${theme.baseFontStyle} ${theme.fontFamily}`]. *)
Definition themeFont (theme : Theme) : string :=
  (baseFontStyle theme ++ " " ++ fontFamily theme)%string.

Section Renderer.
Context {engine : RegExpEngine} {host : Host} {G : Type}.

(** [href.match(re)]: a method call on [undefined] throws. *)
Definition match_ (href : option string) (re : RegExp)
  : completion (option MatchArray) :=
  match href with
  | None => raise TypeError
  | Some str => ret (String_match str re)
  end.

(** [!displayText] holds of [undefined] and of the empty string; past it
    [displayText] is the pattern. *)
Definition getLinkDisplayValue (href displayText : option string)
  : completion (option string) :=
  match displayText with
  | None => ret href
  | Some pattern =>
      if String.eqb pattern "" then ret href
      else
        catch
          (displayTextRegex <- RegExp_new pattern "us" ;;
           patternMatch <- match_ href displayTextRegex ;;
           match patternMatch with
           | Some arr => ret (index arr 1)
           | None => ret displayText
           end)
          (fun _ => ret displayText)
  end.

(** The local [textWidth] of [onClickSelect]. *)
Definition clickTextWidth (ctx : Canvas) (theme : Theme)
    (displayValue : option string) : Q :=
  measureText (font ctx) (toDOMString displayValue)
  + cellHorizontalPadding theme * 2.

(** The local [isHovered] of [onClickSelect]. *)
Definition clickIsHovered (rect : Rectangle) (hoverX textWidth : Q) : bool :=
  let rectHoverX := x rect + hoverX in
  gtb rectHoverX (x rect) && ltb rectHoverX (x rect + textWidth).

Definition onClickSelect (e : Event.t G) : completion (option string) :=
  match createContext with
  | None => ret undefined
  | Some ctx =>
      let hoverX := Event.posX e in
      let rect := Event.bounds e in
      let cell := Event.cell e in
      let theme := Event.theme e in
      let ctx := set_font (themeFont theme) ctx in
      let href := href (data cell) in
      let displayText := displayText (data cell) in
      displayValue <- getLinkDisplayValue href displayText ;;
      let textWidth := clickTextWidth ctx theme displayValue in
      if clickIsHovered rect hoverX textWidth then ret href
      else ret undefined
  end.

(** The local [isHovered] of [draw]; [hoverX] defaults to [-100]. *)
Definition drawIsHovered (rect : Rectangle) (hoverX : option Q) : bool :=
  let hoverX := match hoverX with Some v => v | None => -100 end in
  let rectHoverX := x rect + hoverX in
  gtb rectHoverX (x rect) && ltb rectHoverX (x rect + width rect).

(** [draw] gives [true] or nothing ([undefined]), and the context as the
    calls leave it. *)
Definition draw (args : Args.t) (cell : CustomCell G)
  : completion (option bool * Canvas) :=
  let ctx := Args.ctx args in
  let rect := Args.rect args in
  let theme := Args.theme args in
  let highlighted := Args.highlighted args in
  let href := href (data cell) in
  let displayText := displayText (data cell) in
  match href with
  | None => ret (None, ctx)
  | Some _ =>
      displayValue <- getLinkDisplayValue href displayText ;;
      let text := toDOMString displayValue in
      let xPad := cellHorizontalPadding theme in
      let drawX := x rect + xPad in
      let font := themeFont theme in
      let ctx := set_font font ctx in
      let middleCenterBias := getMiddleCenterBias font in
      let drawY := y rect + height rect / 2 + middleCenterBias in
      let ctx :=
        if drawIsHovered rect (Args.hoverX args) then
          let metrics_width := measureTextCached text font in
          let ctx := call (moveTo drawX (floor (drawY + UNDERLINE_OFFSET) + (1 # 2))) ctx in
          let ctx := call (lineTo (drawX + metrics_width)
                             (floor (drawY + UNDERLINE_OFFSET) + (1 # 2))) ctx in
          let ctx := set_strokeStyle (linkColor theme) ctx in
          let ctx := call (stroke (strokeStyle ctx)) ctx in
          let ctx := set_fillStyle
                       (if highlighted then blend (accentLight theme) (bgCell theme)
                        else bgCell theme) ctx in
          let ctx := call (fillText text (drawX - 1) drawY (fillStyle ctx)) ctx in
          let ctx := call (fillText text (drawX + 1) drawY (fillStyle ctx)) ctx in
          let ctx := call (fillText text (drawX - 2) drawY (fillStyle ctx)) ctx in
          let ctx := call (fillText text (drawX + 2) drawY (fillStyle ctx)) ctx in
          ctx
        else ctx in
      let ctx := set_fillStyle (linkColor theme) ctx in
      let ctx := call (fillText text drawX drawY (fillStyle ctx)) ctx in
      let ctx := call closePath ctx in
      ret (Some true, ctx)
  end.

Definition isMatch (c : CustomCell G) : bool :=
  String.eqb (kind (data c)) "link-cell".

Definition measure (ctx : Canvas) (cell : CustomCell G) (theme : Theme)
  : completion Q :=
  let href := href (data cell) in
  let displayText := displayText (data cell) in
  match href with
  | None => ret 0
  | Some _ =>
      displayValue <- getLinkDisplayValue href displayText ;;
      ret (measureText (font ctx) (toDOMString displayValue)
           + cellHorizontalPadding theme * 2)
  end.

(** [onSelect]: the effects it performs, in order. *)
Definition onSelect (e : Event.t G) : completion (list Effect) :=
  redirectLink <- onClickSelect e ;;
  match redirectLink with
  | Some url => ret [window_open url "_blank"]
  | None => ret []
  end.

Definition onDelete (c : CustomCell G) : CustomCell G :=
  {| data := {| kind := kind (data c);
                displayText := Some "";
                href := Some "" |};
     copyData := copyData c;
     readonly := readonly c;
     grid := grid c |}.

(** The [onChange] that [provideEditor] hands to the overlay editor, for a
    change event whose [e.target.value] is [v]. *)
Definition editorOnChange (value : CustomCell G) (v : string) : CustomCell G :=
  {| data := {| kind := kind (data value);
                href := Some v;
                displayText := displayText (data value) |};
     copyData := v;
     readonly := readonly value;
     grid := grid value |}.

(** The overlay editor's [uri], [preview] and [readonly] props. *)
Definition editorUri (value : CustomCell G) : option string :=
  href (data value).

Definition editorPreview (value : CustomCell G) : completion (option string) :=
  getLinkDisplayValue (href (data value)) (displayText (data value)).

Definition editorReadonly (value : CustomCell G) : bool :=
  match readonly value with
  | Some true => true
  | _ => false
  end.

(** [onPaste]: [None] is the [undefined] that tells the grid to keep the
    data it has. *)
Definition onPaste (toPaste : string) (cellData : LinkCellProps)
  : option LinkCellProps :=
  if strict_eq toPaste (href cellData) then None
  else Some {| kind := kind cellData;
               href := Some toPaste;
               displayText := displayText cellData |}.

End Renderer.
End LinkCell.

(** ** Sample inputs

    A host whose text metrics are those of an 8-pixel monospace font, the
    engine above as the regular-expression engine, and a few cells. *)

Module Sample.
Import Js LinkCell.
Local Open Scope Q_scope.

Lemma compile_empty_no_group :
  forall flags re str arr,
    MiniRegExp.compile "" flags = inr re ->
    MiniRegExp.exec str re = Some arr ->
    nth_error arr 1 = None.
Proof.
  intros flags re str arr Hc He.
  unfold MiniRegExp.compile in Hc. simpl in Hc.
  injection Hc as <-.
  unfold MiniRegExp.exec in He.
  destruct (list_ascii_of_string str); simpl in He;
    injection He as <-; reflexivity.
Qed.

Definition mini_engine : RegExpEngine :=
  {| RegExp := MiniRegExp.regexp;
     RegExp_new := MiniRegExp.compile;
     String_match := MiniRegExp.exec;
     empty_pattern_no_group := compile_empty_no_group |}.

Definition monospace (text : string) : Q :=
  inject_Z (8 * Z.of_nat (String.length text)).

Definition blank_canvas : Canvas :=
  {| font := "10px sans-serif"; strokeStyle := "#000000";
     fillStyle := "#000000"; calls := [] |}.

Definition browser : Host :=
  {| measureText := fun _ text => monospace text;
     measureTextCached := fun text _ => monospace text;
     getMiddleCenterBias := fun _ => 0;
     blend := fun a _ => a;
     createContext := Some blank_canvas |}.

Definition light : Theme :=
  {| baseFontStyle := "13px"; fontFamily := "monospace";
     cellHorizontalPadding := 8; linkColor := "#0068c9";
     bgCell := "#ffffff"; accentLight := "#e5f0ff" |}.

Definition link (h : option string) (d : option string) : CustomCell unit :=
  {| data := {| kind := "link-cell"; href := h; displayText := d |};
     copyData := toDOMString h; readonly := Some false; grid := tt |}.

Definition click (px : Q) (w : Q) (c : CustomCell unit) : Event.t unit :=
  {| Event.posX := px;
     Event.bounds := {| x := 40; y := 0; width := w; height := 32 |};
     Event.cell := c;
     Event.theme := light |}.

(** The same host in a document that gives no 2D context. *)
Definition headless : Host :=
  {| measureText := fun _ text => monospace text;
     measureTextCached := fun text _ => monospace text;
     getMiddleCenterBias := fun _ => 0;
     blend := fun a _ => a;
     createContext := None |}.

(** The arguments of [draw] for a 100 by 32 cell at the origin. *)
Definition frame (pointer : option Q) (selected : bool) : Args.t :=
  {| Args.ctx := blank_canvas;
     Args.rect := {| x := 0; y := 0; width := 100; height := 32 |};
     Args.theme := light; Args.hoverX := pointer;
     Args.highlighted := selected |}.

Definition url : string := "https://example.com".

(** [str.match(new RegExp(pattern, "us"))] with the engine above. *)
Definition match_of (str pattern : string) : completion (option MatchArray) :=
  re <- MiniRegExp.compile pattern "us" ;;
  ret (MiniRegExp.exec str re).

End Sample.

(** ** Properties *)

Section Properties.
Import Js LinkCell.
Context {engine : RegExpEngine} {host : Host} {G : Type}.
Local Open Scope Q_scope.

Lemma ltb_true_iff (a b : Q) : ltb a b = true <-> a < b.
Proof.
  unfold ltb. rewrite negb_true_iff.
  split.
  - intros H. apply Qnot_le_lt. intros Hle.
    apply Qle_bool_iff in Hle. congruence.
  - intros H. destruct (Qle_bool b a) eqn:E; [| reflexivity].
    apply Qle_bool_iff in E. exfalso. exact (Qlt_not_le _ _ H E).
Qed.

Lemma ltb_false_iff (a b : Q) : ltb a b = false <-> b <= a.
Proof.
  unfold ltb. rewrite negb_false_iff. apply Qle_bool_iff.
Qed.

(** The resolver returns on every input: nothing escapes its [try]. *)
Lemma getLinkDisplayValue_returns (href displayText : option string) :
  exists v, getLinkDisplayValue href displayText = inr v.
Proof.
  unfold getLinkDisplayValue.
  destruct displayText as [pattern |]; [| eexists; reflexivity].
  destruct (String.eqb pattern ""); [eexists; reflexivity |].
  simpl.
  destruct (RegExp_new pattern "us") as [err | re]; [eexists; reflexivity |].
  destruct href as [str |]; simpl; [| eexists; reflexivity].
  destruct (String_match str re); eexists; reflexivity.
Qed.

(** What the resolver does once the pattern compiled and the match was
    tried: entry 1 of the match array, or the hint when there is no match. *)
Lemma getLinkDisplayValue_compiled (str pattern : string) (re : RegExp) :
  pattern <> "" ->
  RegExp_new pattern "us" = inr re ->
  getLinkDisplayValue (Some str) (Some pattern)
  = inr (match String_match str re with
         | Some arr => index arr 1
         | None => Some pattern
         end).
Proof.
  intros Hne Hre. unfold getLinkDisplayValue.
  destruct (String.eqb_spec pattern ""); [contradiction |].
  simpl. rewrite Hre. simpl.
  destruct (String_match str re); reflexivity.
Qed.

(** C9. With [displayText] absent or the empty string the resolver returns
    [href] unchanged, whatever [href] is. *)
Theorem resolve_without_displayText (href : option string) :
  getLinkDisplayValue href undefined = inr href
  /\ getLinkDisplayValue href (Some "") = inr href.
Proof. split; reflexivity. Qed.

(** C7. When [displayText] compiles and the match against [href] has a
    first capturing group that took part in it, the resolver returns that
    group's text (entry 1 of the match array), not the whole match. *)
Theorem resolve_first_group (href pattern : string) (re : RegExp)
    (arr : MatchArray) (group : string) :
  RegExp_new pattern "us" = inr re ->
  String_match href re = Some arr ->
  nth_error arr 1 = Some (Some group) ->
  getLinkDisplayValue (Some href) (Some pattern) = inr (Some group).
Proof.
  intros Hre Hm Hg.
  destruct (String.eqb_spec pattern "") as [-> | Hne].
  - rewrite (empty_pattern_no_group _ _ _ _ Hre Hm) in Hg. discriminate.
  - rewrite (getLinkDisplayValue_compiled _ _ _ Hne Hre), Hm.
    unfold index. f_equal.
    destruct arr as [| whole [| g1 rest]]; simpl in Hg |- *; congruence.
Qed.

(** C8. For a non-empty [displayText] that does not compile, or compiles
    and does not match [href], the resolver returns [displayText] itself,
    and it returns: it does not throw. *)
Theorem resolve_fallback (href pattern : string) :
  pattern <> "" ->
  (exists err, RegExp_new pattern "us" = inl err)
  \/ (exists re, RegExp_new pattern "us" = inr re
                 /\ String_match href re = None) ->
  getLinkDisplayValue (Some href) (Some pattern) = inr (Some pattern).
Proof.
  intros Hne [[err Herr] | [re [Hre Hm]]].
  - unfold getLinkDisplayValue.
    destruct (String.eqb_spec pattern ""); [contradiction |].
    simpl. rewrite Herr. reflexivity.
  - rewrite (getLinkDisplayValue_compiled _ _ _ Hne Hre), Hm. reflexivity.
Qed.

(** A match whose array has no usable entry 1 (no capturing group, or a
    group that took no part) makes the resolver return [undefined]. *)
Lemma resolve_match_without_group (href pattern : string) (re : RegExp)
    (arr : MatchArray) :
  pattern <> "" ->
  RegExp_new pattern "us" = inr re ->
  String_match href re = Some arr ->
  nth_error arr 1 = None \/ nth_error arr 1 = Some None ->
  getLinkDisplayValue (Some href) (Some pattern) = inr undefined.
Proof.
  intros Hne Hre Hm Hg.
  rewrite (getLinkDisplayValue_compiled _ _ _ Hne Hre), Hm.
  unfold index, undefined. f_equal.
  destruct arr as [| whole [| g1 rest]]; simpl in Hg |- *;
    destruct Hg; congruence.
Qed.

(** *** Hit testing and measuring *)

Lemma clickIsHovered_iff (rect : Rectangle) (hoverX textWidth : Q) :
  clickIsHovered rect hoverX textWidth = true
  <-> 0 < hoverX /\ hoverX < textWidth.
Proof.
  unfold clickIsHovered, gtb. cbv zeta.
  rewrite andb_true_iff, !ltb_true_iff. split; intros [H1 H2]; split; lra.
Qed.

Lemma drawIsHovered_iff (rect : Rectangle) (hoverX : Q) :
  drawIsHovered rect (Some hoverX) = true
  <-> 0 < hoverX /\ hoverX < width rect.
Proof.
  unfold drawIsHovered, gtb. cbv zeta.
  rewrite andb_true_iff, !ltb_true_iff. split; intros [H1 H2]; split; lra.
Qed.

(** [onClickSelect] with a context at hand, in terms of the resolved
    display value. *)
Lemma onClickSelect_eq (e : Event.t G) (canvas : Canvas) (v : option string) :
  createContext = Some canvas ->
  getLinkDisplayValue (href (data (Event.cell e)))
                      (displayText (data (Event.cell e))) = inr v ->
  onClickSelect e
  = inr (if clickIsHovered (Event.bounds e) (Event.posX e)
              (measureText (themeFont (Event.theme e)) (toDOMString v)
               + cellHorizontalPadding (Event.theme e) * 2)
         then href (data (Event.cell e)) else undefined).
Proof.
  intros Hc Hv. unfold onClickSelect. rewrite Hc. cbv zeta.
  rewrite Hv. simpl.
  unfold clickTextWidth. simpl.
  destruct (clickIsHovered _ _ _); reflexivity.
Qed.

Lemma onClickSelect_no_context (e : Event.t G) :
  createContext = None -> onClickSelect e = inr undefined.
Proof. intros Hc. unfold onClickSelect. rewrite Hc. reflexivity. Qed.

(** C10. The activation zone is open at both ends: a pointer exactly at
    the cell's left edge (offset 0), or exactly at offset
    [textWidth + 2 * cellHorizontalPadding] of the resolved display value,
    gets no activation target. *)
Theorem activation_zone_excludes_boundaries (e : Event.t G) :
  Event.posX e == 0
  \/ (exists v,
        getLinkDisplayValue (href (data (Event.cell e)))
                            (displayText (data (Event.cell e))) = inr v
        /\ Event.posX e
           == measureText (themeFont (Event.theme e)) (toDOMString v)
              + cellHorizontalPadding (Event.theme e) * 2) ->
  onClickSelect e = inr undefined.
Proof.
  intros Hedge.
  destruct createContext as [canvas |] eqn:Hc;
    [| apply onClickSelect_no_context; exact Hc].
  destruct (getLinkDisplayValue_returns
              (href (data (Event.cell e)))
              (displayText (data (Event.cell e)))) as [v Hv].
  rewrite (onClickSelect_eq e canvas v Hc Hv).
  destruct (clickIsHovered _ _ _) eqn:Hh; [| reflexivity].
  apply clickIsHovered_iff in Hh. destruct Hh as [Hlo Hhi].
  destruct Hedge as [H0 | [v' [Hv' Hw]]].
  - lra.
  - rewrite Hv in Hv'. injection Hv' as <-. lra.
Qed.


(** When the resolved text with its padding fits in the cell
    ([textWidth + 2 * cellHorizontalPadding <= rect.width]), every pointer
    offset at which a click surfaces [href], in the cell or not, is an
    offset at which [draw] takes the cell as hovered. *)
Theorem activation_inside_hover_when_text_fits
    (e : Event.t G) (v : option string) (target : string) :
  getLinkDisplayValue (href (data (Event.cell e)))
                      (displayText (data (Event.cell e))) = inr v ->
  measureText (themeFont (Event.theme e)) (toDOMString v)
  + cellHorizontalPadding (Event.theme e) * 2 <= width (Event.bounds e) ->
  onClickSelect e = inr (Some target) ->
  drawIsHovered (Event.bounds e) (Some (Event.posX e)) = true.
Proof.
  intros Hv Hfit Hclick.
  destruct createContext as [canvas |] eqn:Hc.
  - rewrite (onClickSelect_eq e canvas v Hc Hv) in Hclick.
    destruct (clickIsHovered _ _ _) eqn:Hh; [| discriminate].
    apply clickIsHovered_iff in Hh. apply drawIsHovered_iff. lra.
  - rewrite (onClickSelect_no_context e Hc) in Hclick. discriminate.
Qed.

(** C3, as the code has it.  For a cell whose [href] is [undefined], at
    every pointer position, geometry and theme, the hit test surfaces no
    target, [onSelect] performs no effect, and [measure] returns 0. *)
Theorem undefined_href_is_inert
    (e : Event.t G) (ctx : Canvas) (theme : Theme) :
  href (data (Event.cell e)) = undefined ->
  onClickSelect e = inr undefined
  /\ onSelect e = inr []
  /\ measure ctx (Event.cell e) theme = inr 0.
Proof.
  intros Hh.
  assert (Hclick : onClickSelect e = inr undefined).
  { destruct createContext as [canvas |] eqn:Hc;
      [| apply onClickSelect_no_context; exact Hc].
    destruct (getLinkDisplayValue_returns
                (href (data (Event.cell e)))
                (displayText (data (Event.cell e)))) as [v Hv].
    rewrite (onClickSelect_eq e canvas v Hc Hv), Hh.
    destruct (clickIsHovered _ _ _); reflexivity. }
  split; [exact Hclick |]. split.
  - unfold onSelect. rewrite Hclick. reflexivity.
  - unfold measure. rewrite Hh. reflexivity.
Qed.


(** *** Mutations *)

(** C5. Pasting the text the cell already has as [href] gives [undefined]
    (no change); pasting anything else gives a record whose [href] is the
    pasted text and whose [displayText] (and [kind]) are the old ones. *)
Theorem onPaste_spec (toPaste : string) (cellData : LinkCellProps) :
  (href cellData = Some toPaste -> onPaste toPaste cellData = None)
  /\ (href cellData <> Some toPaste ->
      exists d,
        onPaste toPaste cellData = Some d
        /\ href d = Some toPaste
        /\ displayText d = displayText cellData
        /\ kind d = kind cellData).
Proof.
  unfold onPaste, strict_eq. split.
  - intros ->. rewrite String.eqb_refl. reflexivity.
  - intros Hne. destruct (href cellData) as [s |].
    + destruct (String.eqb_spec toPaste s) as [-> | _]; [congruence |].
      eexists. repeat split.
    + eexists. repeat split.
Qed.

(** C6. [onDelete] returns, for every cell, the cell with [href] and
    [displayText] set to the empty string and every other field as it was. *)
Theorem onDelete_spec (c : CustomCell G) :
  href (data (onDelete c)) = Some ""
  /\ displayText (data (onDelete c)) = Some ""
  /\ kind (data (onDelete c)) = kind (data c)
  /\ copyData (onDelete c) = copyData c
  /\ readonly (onDelete c) = readonly c
  /\ grid (onDelete c) = grid c.
Proof. repeat split. Qed.

(** The editor's change handler: [href] and the copy buffer take the edited
    text, [displayText] and every other field stay. *)
Theorem editorOnChange_spec (value : CustomCell G) (v : string) :
  href (data (editorOnChange value v)) = Some v
  /\ copyData (editorOnChange value v) = v
  /\ displayText (data (editorOnChange value v)) = displayText (data value)
  /\ kind (data (editorOnChange value v)) = kind (data value)
  /\ readonly (editorOnChange value v) = readonly value
  /\ grid (editorOnChange value v) = grid value.
Proof. repeat split. Qed.

(** *** Drawing *)

(** The resolver does not throw, on any pair of arguments. *)
Theorem getLinkDisplayValue_never_throws (href displayText : option string) :
  forall err, getLinkDisplayValue href displayText <> inl err.
Proof.
  intros err.
  destruct (getLinkDisplayValue_returns href displayText) as [v ->].
  discriminate.
Qed.

(** [draw] on a cell without [href] draws nothing and returns nothing. *)
Theorem draw_undefined_href (args : Args.t) (cell : CustomCell G) :
  href (data cell) = undefined ->
  draw args cell = inr (None, Args.ctx args).
Proof. intros Hh. unfold draw. rewrite Hh. reflexivity. Qed.

(** [draw] on a cell with an [href] returns [true]; its calls are, newest
    first, [closePath], the resolved display value in the link colour at
    the padded position, and under them, when the pointer is in the cell,
    the halo (the text four times around that position in the background
    colour) over the underline. *)
Theorem draw_calls (args : Args.t) (cell : CustomCell G)
    (h : string) (v : option string) :
  href (data cell) = Some h ->
  getLinkDisplayValue (Some h) (displayText (data cell)) = inr v ->
  let rect := Args.rect args in
  let theme := Args.theme args in
  let text := toDOMString v in
  let drawX := x rect + cellHorizontalPadding theme in
  let drawY := y rect + height rect / 2 + getMiddleCenterBias (themeFont theme) in
  let underline := floor (drawY + UNDERLINE_OFFSET) + (1 # 2) in
  let background :=
    if Args.highlighted args then blend (accentLight theme) (bgCell theme)
    else bgCell theme in
  exists canvas,
    draw args cell = inr (Some true, canvas)
    /\ calls canvas
       = closePath
         :: fillText text drawX drawY (linkColor theme)
         :: (if drawIsHovered rect (Args.hoverX args)
             then [ fillText text (drawX + 2) drawY background;
                    fillText text (drawX - 2) drawY background;
                    fillText text (drawX + 1) drawY background;
                    fillText text (drawX - 1) drawY background;
                    stroke (linkColor theme);
                    lineTo (drawX + measureTextCached text (themeFont theme))
                           underline;
                    moveTo drawX underline ]
             else [])
         ++ calls (Args.ctx args).
Proof.
  intros Hh Hv. cbv zeta. unfold draw. rewrite Hh. cbv zeta. rewrite Hv.
  simpl. eexists. split; [reflexivity |].
  destruct (drawIsHovered _ _); reflexivity.
Qed.

(** *** The resolver, further *)

(** The resolver departs from a non-empty hint only on a match: a result
    other than the hint is [href] when the hint is empty, and entry 1 of the
    match array of a pattern that compiled and matched otherwise. *)
Theorem resolve_departs_only_on_match
    (href pattern : string) (v : option string) :
  getLinkDisplayValue (Some href) (Some pattern) = inr v ->
  v <> Some pattern ->
  (pattern = "" /\ v = Some href)
  \/ (exists re arr,
        RegExp_new pattern "us" = inr re
        /\ String_match href re = Some arr
        /\ v = index arr 1).
Proof.
  intros Hv Hne.
  destruct (String.eqb_spec pattern "") as [-> | Hp].
  - left. split; [reflexivity |]. simpl in Hv. congruence.
  - right. unfold getLinkDisplayValue in Hv.
    destruct (String.eqb_spec pattern ""); [contradiction |].
    simpl in Hv.
    destruct (RegExp_new pattern "us") as [err | re] eqn:Hre; simpl in Hv;
      [congruence |].
    destruct (String_match href re) as [arr |] eqn:Hm; simpl in Hv;
      [| congruence].
    exists re, arr. split; [reflexivity |]. split; [exact Hm | congruence].
Qed.

(** With [href] undefined and a non-empty hint the resolver returns the
    hint: whether [new RegExp] throws or [href.match] does, the [catch]
    answers. *)
Theorem resolve_undefined_href (pattern : string) :
  pattern <> "" ->
  getLinkDisplayValue undefined (Some pattern) = inr (Some pattern).
Proof.
  intros Hp. unfold getLinkDisplayValue.
  destruct (String.eqb_spec pattern ""); [contradiction |].
  simpl. destruct (RegExp_new pattern "us"); reflexivity.
Qed.

(** *** Selecting, further *)


(** When the document gives no 2D context, [onSelect] does nothing,
    wherever the pointer is. *)
Theorem onSelect_without_context (e : Event.t G) :
  createContext = None -> onSelect e = inr [].
Proof.
  intros Hc. unfold onSelect.
  rewrite (onClickSelect_no_context e Hc). reflexivity.
Qed.

(** *** Drawing, further *)

Ltac unfold_draw Hh Hv :=
  unfold draw; rewrite Hh; cbv zeta; rewrite Hv; simpl.

Lemma drawIsHovered_outside (rect : Rectangle) (hoverX : option Q) :
  hoverX = undefined
  \/ (exists p, hoverX = Some p /\ (p <= 0 \/ width rect <= p)) ->
  drawIsHovered rect hoverX = false.
Proof.
  intros Hout. unfold drawIsHovered, gtb. cbv zeta.
  apply andb_false_iff. rewrite !ltb_false_iff.
  destruct Hout as [-> | [p [-> [Hp | Hp]]]]; unfold undefined.
  - left. lra.
  - left. lra.
  - right. lra.
Qed.

(** [draw] never throws; it reports the cell as drawn exactly when the
    cell has an [href], and otherwise leaves the context as it was. *)
Theorem draw_drawn_iff_href (args : Args.t) (cell : CustomCell G) :
  exists r canvas,
    draw args cell = inr (r, canvas)
    /\ (r = Some true <-> href (data cell) <> undefined)
    /\ (r = None <-> href (data cell) = undefined)
    /\ (href (data cell) = undefined -> canvas = Args.ctx args).
Proof.
  destruct (href (data cell)) as [h |] eqn:Hh.
  - destruct (getLinkDisplayValue_returns
                (Some h) (displayText (data cell))) as [v Hv].
    unfold_draw Hh Hv. do 2 eexists. split; [reflexivity |].
    unfold undefined. repeat split; congruence.
  - unfold draw. rewrite Hh. do 2 eexists. split; [reflexivity |].
    unfold undefined. repeat split; congruence.
Qed.

(** With the pointer away (no [hoverX], which stands for [-100], or an
    offset at or left of the cell's left edge, or at or right of its right
    edge), [draw] paints the text once and nothing else, and leaves the
    stroke style alone. *)
Theorem draw_pointer_outside (args : Args.t) (cell : CustomCell G)
    (h : string) (v : option string) :
  href (data cell) = Some h ->
  getLinkDisplayValue (Some h) (displayText (data cell)) = inr v ->
  Args.hoverX args = undefined
  \/ (exists p, Args.hoverX args = Some p
                /\ (p <= 0 \/ width (Args.rect args) <= p)) ->
  exists canvas,
    draw args cell = inr (Some true, canvas)
    /\ calls canvas
       = closePath
         :: fillText (toDOMString v)
              (x (Args.rect args) + cellHorizontalPadding (Args.theme args))
              (y (Args.rect args) + height (Args.rect args) / 2
               + getMiddleCenterBias (themeFont (Args.theme args)))
              (linkColor (Args.theme args))
         :: calls (Args.ctx args)
    /\ strokeStyle canvas = strokeStyle (Args.ctx args).
Proof.
  intros Hh Hv Hout. unfold_draw Hh Hv.
  rewrite (drawIsHovered_outside _ _ Hout).
  eexists. split; [reflexivity |]. split; reflexivity.
Qed.


(** What [draw] leaves in the context: the theme's font, the link colour
    as fill style, and the stroke style it found unless the pointer was in
    the cell. *)
Theorem draw_leaves_state (args : Args.t) (cell : CustomCell G) (h : string) :
  href (data cell) = Some h ->
  exists canvas,
    draw args cell = inr (Some true, canvas)
    /\ font canvas = themeFont (Args.theme args)
    /\ fillStyle canvas = linkColor (Args.theme args)
    /\ strokeStyle canvas
       = if drawIsHovered (Args.rect args) (Args.hoverX args)
         then linkColor (Args.theme args)
         else strokeStyle (Args.ctx args).
Proof.
  intros Hh.
  destruct (getLinkDisplayValue_returns
              (Some h) (displayText (data cell))) as [v Hv].
  unfold_draw Hh Hv. eexists. split; [reflexivity |].
  destruct (drawIsHovered _ _); repeat split.
Qed.

(** One text for the three views: what the editor previews is what [draw]
    paints on top, and its width is what [measure] reports besides the
    padding. *)
Theorem painted_text_is_measured_text
    (args : Args.t) (ctx : Canvas) (theme : Theme) (cell : CustomCell G)
    (h : string) :
  href (data cell) = Some h ->
  exists v canvas below,
    editorPreview cell = inr v
    /\ draw args cell = inr (Some true, canvas)
    /\ calls canvas
       = closePath
         :: fillText (toDOMString v)
              (x (Args.rect args) + cellHorizontalPadding (Args.theme args))
              (y (Args.rect args) + height (Args.rect args) / 2
               + getMiddleCenterBias (themeFont (Args.theme args)))
              (linkColor (Args.theme args))
         :: below
    /\ measure ctx cell theme
       = inr (measureText (font ctx) (toDOMString v)
              + cellHorizontalPadding theme * 2).
Proof.
  intros Hh.
  destruct (getLinkDisplayValue_returns
              (Some h) (displayText (data cell))) as [v Hv].
  exists v. unfold editorPreview, measure. rewrite Hh, Hv.
  unfold_draw Hh Hv. do 2 eexists.
  split; [reflexivity |]. split; [reflexivity |]. split; reflexivity.
Qed.

(** *** Mutations, further *)

(** Deleting twice is deleting once; the deleted cell resolves to the
    empty string, is still drawn, and still measures the padding around
    the empty text. *)
Theorem onDelete_then_view
    (c : CustomCell G) (ctx : Canvas) (theme : Theme) (args : Args.t) :
  onDelete (onDelete c) = onDelete c
  /\ getLinkDisplayValue (href (data (onDelete c)))
                         (displayText (data (onDelete c)))
     = inr (Some "")
  /\ measure ctx (onDelete c) theme
     = inr (measureText (font ctx) "" + cellHorizontalPadding theme * 2)
  /\ exists canvas, draw args (onDelete c) = inr (Some true, canvas).
Proof.
  split; [reflexivity |]. split; [reflexivity |]. split; [reflexivity |].
  unfold draw. simpl. eexists. reflexivity.
Qed.

(** No mutation changes what [isMatch] reads: a link cell stays one
    through delete, edit and paste. *)
Theorem mutations_keep_isMatch (c : CustomCell G) (text : string) :
  isMatch (onDelete c) = isMatch c
  /\ isMatch (editorOnChange c text) = isMatch c
  /\ (forall d, onPaste text (data c) = Some d -> kind d = kind (data c)).
Proof.
  split; [reflexivity |]. split; [reflexivity |].
  intros d. unfold onPaste.
  destruct (strict_eq text (href (data c))); [discriminate |].
  intros Hd. injection Hd as <-. reflexivity.
Qed.

(** [onPaste] signals "no change" exactly when [href] already is the pasted
    text, and pasting the same text again after an accepted paste signals
    "no change". *)
Theorem onPaste_no_change_iff (toPaste : string) (cellData : LinkCellProps) :
  (onPaste toPaste cellData = None <-> href cellData = Some toPaste)
  /\ (forall d, onPaste toPaste cellData = Some d -> onPaste toPaste d = None).
Proof.
  unfold onPaste, strict_eq. split.
  - destruct (href cellData) as [s |].
    + destruct (String.eqb_spec toPaste s) as [-> | Hne].
      * split; reflexivity.
      * split; [discriminate | congruence].
    + split; discriminate.
  - intros d Hd.
    assert (Hh : href d = Some toPaste).
    { destruct (href cellData) as [s |];
        [destruct (String.eqb toPaste s); [discriminate |] |];
        injection Hd as <-; reflexivity. }
    rewrite Hh, String.eqb_refl. reflexivity.
Qed.

(** Pasting onto a deleted cell: the empty text changes nothing, any other
    text becomes [href] and, the hint being empty, the text displayed. *)
Theorem paste_after_delete (c : CustomCell G) (toPaste : string) :
  toPaste <> "" ->
  onPaste "" (data (onDelete c)) = None
  /\ exists d,
       onPaste toPaste (data (onDelete c)) = Some d
       /\ href d = Some toPaste
       /\ getLinkDisplayValue (href d) (displayText d) = inr (Some toPaste).
Proof.
  intros Hne. split; [reflexivity |].
  unfold onPaste, strict_eq. simpl.
  destruct (String.eqb_spec toPaste "") as [-> | _]; [contradiction |].
  eexists. split; [reflexivity |]. split; reflexivity.
Qed.

(** Editing: the editor shows back the text it was given, a later edit
    overrides an earlier one, pasting the edited text is no change, and
    the preview is the resolver on the edited text with the old hint. *)
Theorem editorOnChange_round_trip (value : CustomCell G) (v w : string) :
  editorUri (editorOnChange value v) = Some v
  /\ editorOnChange (editorOnChange value v) w = editorOnChange value w
  /\ onPaste v (data (editorOnChange value v)) = None
  /\ editorPreview (editorOnChange value v)
     = getLinkDisplayValue (Some v) (displayText (data value)).
Proof.
  split; [reflexivity |]. split; [reflexivity |]. split; [| reflexivity].
  unfold onPaste, strict_eq. simpl. rewrite String.eqb_refl. reflexivity.
Qed.

(** The copy buffer: an edit leaves it equal to [href]; a delete leaves it
    as it was, so after a delete it equals [href] only if it was empty. *)
Theorem copy_buffer_after_mutation (c : CustomCell G) (v : string) :
  href (data (editorOnChange c v)) = Some (copyData (editorOnChange c v))
  /\ copyData (onDelete (editorOnChange c v)) = v
  /\ (href (data (onDelete c)) = Some (copyData (onDelete c))
      <-> copyData c = "").
Proof.
  split; [reflexivity |]. split; [reflexivity |].
  simpl. split; congruence.
Qed.

(** *** The two zones, further *)

(** In a cell no wider than its text with the padding, the hover zone lies
    in the activation zone: wherever [draw] takes the cell as hovered, a
    click surfaces [href]. *)
Theorem hover_inside_activation_when_text_overflows
    (e : Event.t G) (canvas : Canvas) (h : string) (v : option string) :
  createContext = Some canvas ->
  href (data (Event.cell e)) = Some h ->
  getLinkDisplayValue (Some h) (displayText (data (Event.cell e))) = inr v ->
  width (Event.bounds e)
  <= measureText (themeFont (Event.theme e)) (toDOMString v)
     + cellHorizontalPadding (Event.theme e) * 2 ->
  drawIsHovered (Event.bounds e) (Some (Event.posX e)) = true ->
  onClickSelect e = inr (Some h).
Proof.
  intros Hc Hh Hv Hwide Hhover.
  rewrite <- Hh in Hv.
  rewrite (onClickSelect_eq e canvas v Hc Hv), Hh.
  apply drawIsHovered_iff in Hhover.
  assert (Hin : clickIsHovered (Event.bounds e) (Event.posX e)
                  (measureText (themeFont (Event.theme e)) (toDOMString v)
                   + cellHorizontalPadding (Event.theme e) * 2) = true)
    by (apply clickIsHovered_iff; lra).
  rewrite Hin. reflexivity.
Qed.

(** When no text has a negative width, [measure] reports at least the
    padding of both sides for every cell that has an [href]. *)
Theorem measure_at_least_padding
    (ctx : Canvas) (cell : CustomCell G) (theme : Theme) (h : string) :
  (forall f text, 0 <= measureText f text) ->
  href (data cell) = Some h ->
  exists w,
    measure ctx cell theme = inr w
    /\ cellHorizontalPadding theme * 2 <= w.
Proof.
  intros Hpos Hh.
  destruct (getLinkDisplayValue_returns
              (Some h) (displayText (data cell))) as [v Hv].
  unfold measure. rewrite Hh, Hv. simpl.
  eexists. split; [reflexivity |].
  pose proof (Hpos (font ctx) (toDOMString v)). lra.
Qed.

End Properties.

(** ** The properties on the sample inputs *)

Import Js LinkCell Sample.
Local Open Scope Q_scope.

(** The sample engine on a few patterns: a group inside a repetition keeps
    its last round, a group that takes no part is [undefined], an optional
    round that consumes nothing is not taken, a malformed pattern is a
    [SyntaxError]. *)
Example match_of_examples :
  match_of "https://example.com/users/42" "users/(\d+)"
  = inr (Some [Some "users/42"; Some "42"])
  /\ match_of "aab-xyz" "(a|b)*-(q)?(x.*)$"
     = inr (Some [Some "aab-xyz"; Some "b"; undefined; Some "xyz"])
  /\ match_of "ab" "(?:(a)|b)*" = inr (Some [Some "ab"; undefined])
  /\ match_of "abc" "(x?)?" = inr (Some [Some ""; undefined])
  /\ match_of url "not a link" = inr None
  /\ match_of url "users/(\d+" = inl SyntaxError
  /\ match_of url "*" = inl SyntaxError.
Proof. repeat split. Qed.

(** C1, on the code.  A hint that occurs in the URL as plain text matches
    it with no capturing group: the match array has the whole match only,
    entry 1 is [undefined], and that, not the hint, is what the resolver
    returns. *)
Lemma resolve_label_found_in_url :
  match_of url "example" = inr (Some [Some "example"])
  /\ @getLinkDisplayValue mini_engine (Some url) (Some "example")
     = inr undefined
  /\ @getLinkDisplayValue mini_engine (Some url) (Some "example")
     <> inr (Some "example").
Proof. split; [reflexivity |]. split; [reflexivity | discriminate]. Qed.

(** The same with a group that takes no part in the match. *)
Lemma resolve_group_not_taken :
  match_of url "(www)?example" = inr (Some [Some "example"; undefined])
  /\ @getLinkDisplayValue mini_engine (Some url) (Some "(www)?example")
     = inr undefined.
Proof. split; reflexivity. Qed.

(** What the cell then shows and measures: the text [undefined]. *)
Lemma measure_label_found_in_url :
  @measure mini_engine browser unit blank_canvas
    (link (Some url) (Some "example")) light
  = inr (monospace "undefined" + 8 * 2).
Proof. reflexivity. Qed.

(** C7 on the specification's example. *)
Lemma resolve_first_group_witness :
  @getLinkDisplayValue mini_engine
    (Some "https://example.com/users/42") (Some "users/(\d+)")
  = inr (Some "42").
Proof.
  eapply (@resolve_first_group mini_engine); reflexivity.
Defined.

(** C8 on a hint that does not match, and on a malformed pattern. *)
Lemma resolve_fallback_witness :
  @getLinkDisplayValue mini_engine (Some url) (Some "not a link")
  = inr (Some "not a link")
  /\ @getLinkDisplayValue mini_engine (Some url) (Some "users/(\d+")
     = inr (Some "users/(\d+").
Proof.
  split; apply (@resolve_fallback mini_engine).
  - discriminate.
  - right. eexists. split; reflexivity.
  - discriminate.
  - left. eexists. reflexivity.
Defined.

(** C10 at offset 0 and at offset 168, the width of the text with its
    padding. *)
Lemma activation_zone_excludes_boundaries_witness :
  @onClickSelect mini_engine browser unit (click 0 300 (link (Some url) None))
  = inr undefined
  /\ @onClickSelect mini_engine browser unit
       (click (monospace url + 8 * 2) 300 (link (Some url) None))
     = inr undefined.
Proof.
  split; apply (@activation_zone_excludes_boundaries mini_engine browser).
  - left. reflexivity.
  - right. exists (Some url). split; reflexivity.
Defined.


(** A cell of width 300, which the text fits. *)
Lemma activation_inside_hover_witness :
  drawIsHovered (Event.bounds (click 50 300 (link (Some url) None)))
                (Some (Event.posX (click 50 300 (link (Some url) None))))
  = true.
Proof.
  apply (@activation_inside_hover_when_text_fits mini_engine browser unit
           (click 50 300 (link (Some url) None)) (Some url) url).
  - reflexivity.
  - discriminate.
  - reflexivity.
Defined.

(** C3, as stated, fails for the empty string: the cell that [onDelete]
    leaves has [href = ""], a click in its padding surfaces that string,
    [onSelect] opens it, and [measure] returns twice the padding. *)
Lemma empty_href_is_not_inert :
  href (data (link (Some "") None)) = Some ""
  /\ @onClickSelect mini_engine browser unit (click 4 300 (link (Some "") None))
     = inr (Some "")
  /\ @onSelect mini_engine browser unit (click 4 300 (link (Some "") None))
     = inr [window_open "" "_blank"]
  /\ exists w,
       @measure mini_engine browser unit blank_canvas (link (Some "") None) light
       = inr w
       /\ ~ w == 0.
Proof.
  split; [reflexivity |]. split; [reflexivity |]. split; [reflexivity |].
  eexists. split; [reflexivity |]. discriminate.
Qed.

(** C3 on a cell with a hint and no [href]. *)
Lemma undefined_href_is_inert_witness :
  @onClickSelect mini_engine browser unit
    (click 4 300 (link undefined (Some "label")))
  = inr undefined
  /\ @onSelect mini_engine browser unit
       (click 4 300 (link undefined (Some "label")))
     = inr []
  /\ @measure mini_engine browser unit blank_canvas
       (link undefined (Some "label")) light
     = inr 0.
Proof.
  apply (@undefined_href_is_inert mini_engine browser unit
           (click 4 300 (link undefined (Some "label")))).
  reflexivity.
Defined.



(** C5 on pasting the same and another URL. *)
Lemma onPaste_spec_witness :
  onPaste url {| kind := "link-cell"; href := Some url;
                 displayText := Some "label" |}
  = None
  /\ exists d,
       onPaste "https://streamlit.io"
         {| kind := "link-cell"; href := Some url;
            displayText := Some "label" |}
       = Some d
       /\ href d = Some "https://streamlit.io"
       /\ displayText d = Some "label"
       /\ kind d = "link-cell".
Proof.
  split.
  - apply (proj1 (onPaste_spec url _)). reflexivity.
  - apply (proj2 (onPaste_spec "https://streamlit.io"
                    {| kind := "link-cell"; href := Some url;
                       displayText := Some "label" |})).
    discriminate.
Defined.

(** The specification's two [draw] examples. *)
Lemma draw_undefined_href_witness :
  @draw mini_engine browser unit
    {| Args.ctx := blank_canvas;
       Args.rect := {| x := 0; y := 0; width := 100; height := 32 |};
       Args.theme := light; Args.hoverX := undefined;
       Args.highlighted := false |}
    (link undefined undefined)
  = inr (None, blank_canvas).
Proof.
  apply (@draw_undefined_href mini_engine browser unit). reflexivity.
Defined.

Lemma draw_calls_witness :
  exists canvas,
    @draw mini_engine browser unit
      {| Args.ctx := blank_canvas;
         Args.rect := {| x := 0; y := 0; width := 100; height := 32 |};
         Args.theme := light; Args.hoverX := undefined;
         Args.highlighted := false |}
      (link (Some "https://x") undefined)
    = inr (Some true, canvas)
    /\ calls canvas
       = [closePath; fillText "https://x" (0 + 8) (0 + 32 / 2 + 0) "#0068c9"].
Proof.
  exact (@draw_calls mini_engine browser unit
           {| Args.ctx := blank_canvas;
              Args.rect := {| x := 0; y := 0; width := 100; height := 32 |};
              Args.theme := light; Args.hoverX := undefined;
              Args.highlighted := false |}
           (link (Some "https://x") undefined)
           "https://x" (Some "https://x") eq_refl eq_refl).
Defined.

(** The further properties on the sample inputs. *)

Lemma resolve_departs_only_on_match_witness :
  ("users/(\d+)" = "" /\ Some "42" = Some "https://example.com/users/42")
  \/ (exists re arr,
        @RegExp_new mini_engine "users/(\d+)" "us" = inr re
        /\ @String_match mini_engine "https://example.com/users/42" re
           = Some arr
        /\ Some "42" = index arr 1).
Proof.
  apply (@resolve_departs_only_on_match mini_engine
           "https://example.com/users/42" "users/(\d+)" (Some "42")).
  - reflexivity.
  - discriminate.
Defined.

Lemma resolve_undefined_href_witness :
  @getLinkDisplayValue mini_engine undefined (Some "users/(\d+)")
  = inr (Some "users/(\d+)")
  /\ @getLinkDisplayValue mini_engine undefined (Some "users/(\d+")
     = inr (Some "users/(\d+").
Proof.
  split; apply (@resolve_undefined_href mini_engine); discriminate.
Defined.

Lemma onSelect_without_context_witness :
  @onSelect mini_engine headless unit (click 20 300 (link (Some url) None))
  = inr [].
Proof.
  apply (@onSelect_without_context mini_engine headless unit). reflexivity.
Defined.

Lemma draw_pointer_outside_witness :
  exists canvas,
    @draw mini_engine browser unit (frame undefined true)
      (link (Some url) None)
    = inr (Some true, canvas)
    /\ calls canvas
       = [closePath; fillText url (0 + 8) (0 + 32 / 2 + 0) "#0068c9"]
    /\ strokeStyle canvas = "#000000".
Proof.
  apply (@draw_pointer_outside mini_engine browser unit
           (frame undefined true) (link (Some url) None) url (Some url)).
  - reflexivity.
  - reflexivity.
  - left. reflexivity.
Defined.


Lemma draw_leaves_state_witness :
  exists canvas,
    @draw mini_engine browser unit (frame (Some 50) false)
      (link (Some url) None)
    = inr (Some true, canvas)
    /\ font canvas = "13px monospace"
    /\ fillStyle canvas = "#0068c9"
    /\ strokeStyle canvas = "#0068c9".
Proof.
  apply (@draw_leaves_state mini_engine browser unit
           (frame (Some 50) false) (link (Some url) None) url).
  reflexivity.
Defined.

Lemma painted_text_is_measured_text_witness :
  exists v canvas below,
    @editorPreview mini_engine unit
      (link (Some "https://example.com/users/42") (Some "users/(\d+)"))
    = inr v
    /\ @draw mini_engine browser unit (frame undefined false)
         (link (Some "https://example.com/users/42") (Some "users/(\d+)"))
       = inr (Some true, canvas)
    /\ calls canvas
       = closePath
         :: fillText (toDOMString v) (0 + 8) (0 + 32 / 2 + 0) "#0068c9"
         :: below
    /\ @measure mini_engine browser unit blank_canvas
         (link (Some "https://example.com/users/42") (Some "users/(\d+)"))
         light
       = inr (monospace (toDOMString v) + 8 * 2).
Proof.
  apply (@painted_text_is_measured_text mini_engine browser unit
           (frame undefined false) blank_canvas light
           (link (Some "https://example.com/users/42") (Some "users/(\d+)"))
           "https://example.com/users/42").
  reflexivity.
Defined.

Lemma paste_after_delete_witness :
  onPaste "" (data (@onDelete unit (link (Some url) (Some "label")))) = None
  /\ exists d,
       onPaste "https://streamlit.io"
         (data (@onDelete unit (link (Some url) (Some "label"))))
       = Some d
       /\ href d = Some "https://streamlit.io"
       /\ @getLinkDisplayValue mini_engine (href d) (displayText d)
          = inr (Some "https://streamlit.io").
Proof.
  apply (@paste_after_delete mini_engine unit). discriminate.
Defined.

Lemma hover_inside_activation_witness :
  @onClickSelect mini_engine browser unit (click 5 10 (link (Some url) None))
  = inr (Some url).
Proof.
  apply (@hover_inside_activation_when_text_overflows mini_engine browser unit
           (click 5 10 (link (Some url) None)) blank_canvas url (Some url));
    try reflexivity.
  discriminate.
Defined.

Lemma monospace_nonnegative (text : string) : 0 <= monospace text.
Proof.
  unfold monospace. change 0 with (inject_Z 0). rewrite <- Zle_Qle.
  apply Z.mul_nonneg_nonneg; [discriminate | apply Nat2Z.is_nonneg].
Qed.

Lemma measure_at_least_padding_witness :
  exists w,
    @measure mini_engine browser unit blank_canvas
      (link (Some url) (Some "label")) light
    = inr w
    /\ 8 * 2 <= w.
Proof.
  apply (@measure_at_least_padding mini_engine browser unit
           blank_canvas (link (Some url) (Some "label")) light url).
  - intros f text. apply monospace_nonnegative.
  - reflexivity.
Defined.
